(** * The in-memory channel dispatcher: start-up and shut-down of [main]

    A shallow embedding of [cmd/in_memory/channel_dispatcher/main.go].

    The program is one straight-line [main] that wires external collaborators
    together.  It is embedded as a computation in a small monad that threads
    the routing table held by the swappable handler, writes the log of the
    calls it makes, and can leave through [os.Exit].  Whatever the
    collaborators answer is read from a [World]; a theorem that quantifies over
    every [World] therefore speaks of every execution. *)

From Stdlib Require Import ZArith QArith String Ascii List.
From stdpp Require Import gmap strings list.

Local Open Scope string_scope.

(** ** Go values used by [main] *)

(** A Go [error], by its message. *)
Definition Error := string.

(** A Go [(value, err)] result pair: exactly one of the two is meaningful. *)
Inductive Result (A : Type) : Type :=
| Ok (a : A)
| Err (e : Error).
Arguments Ok {A} a.
Arguments Err {A} e.

(** A Go [map[string]string]. *)
Abbreviation ConfigMap := (gmap string string).

(** [time.Duration] counts nanoseconds in an int64. *)
Definition Duration := Z.
Definition time_Nanosecond : Duration := 1%Z.
Definition time_Second : Duration := (1000000000 * time_Nanosecond)%Z.
Definition time_Minute : Duration := (60 * time_Second)%Z.

(** The fields of [rest.Config] that [main] reads or writes.  [QPS] is a
    [float32]; the products [main] stores in it are constant expressions, which
    Go evaluates exactly, so they are kept as rationals. *)
Record RestConfig := mkRestConfig {
  Host : string;
  QPS : Q;
  Burst : Z
}.

(** ** The swappable routing handler *)

Module Swappable.

(** A routing table: channel identifier to its subscriber endpoints. *)
Abbreviation RoutingTable := (gmap string (list string)).

(** Modelled from the spec: package [pkg/provisioners/swappable] is not among
    the sources.  The handler owns a reference to the current snapshot; [get]
    returns the most recently published table and [set] replaces it whole. *)
Record Handler := mkHandler { current : RoutingTable }.

(** Modelled from the spec: [swappable.NewEmptyHandler], when it succeeds,
    yields a handler that already holds a table with zero channels. *)
Definition NewEmptyHandler : Handler := {| current := ∅ |}.

Definition get (h : Handler) : RoutingTable := current h.

Definition set (t : RoutingTable) (_ : Handler) : Handler := {| current := t |}.

End Swappable.

Import Swappable.

(** ** The dispatcher service *)

(** [dispatcher.InMemoryDispatcherArgs], as [main] fills it in.  [Handler_] is
    the field [Handler] (the name is taken by the handler's type); the
    [Logger] field carries nothing the properties below depend on and is left
    out. *)
Record InMemoryDispatcherArgs := mkArgs {
  Port : Z;
  ReadTimeout : Duration;
  WriteTimeout : Duration;
  Handler_ : Handler
}.

(** Modelled from the spec: package [pkg/inmemorychannel] is not among the
    sources.  A dispatcher is bound to the arguments it was built from. *)
Record Dispatcher := mkDispatcher { d_args : InMemoryDispatcherArgs }.

Definition dispatcher_NewDispatcher (args : InMemoryDispatcherArgs) : Dispatcher :=
  {| d_args := args |}.

(** ** The reconciliation controller *)

Module Reconciler.

(** A channel definition, as far as routing goes: its subscribers. *)
Record ChannelDef := mkChannelDef { subscribers : list string }.

Inductive WatchEvent :=
| Added (id : string) (def : ChannelDef)
| Updated (id : string) (def : ChannelDef)
| Deleted (id : string).

(** Modelled from the spec: package [pkg/reconciler/inmemorychannel/dispatcher]
    is not among the sources.  A controller keeps an accumulation of the known
    channel definitions keyed by channel identifier, and is bound to the
    dispatcher whose handler it updates. *)
Record Controller := mkController {
  bound_to : Dispatcher;
  accumulated : gmap string ChannelDef
}.

(** Modelled from the spec: [Added] and [Updated] overwrite the key, [Deleted]
    removes it. *)
Definition accumulate (e : WatchEvent) (acc : gmap string ChannelDef)
  : gmap string ChannelDef :=
  match e with
  | Added id def | Updated id def => <[id := def]> acc
  | Deleted id => delete id acc
  end.

(** Modelled from the spec: the full table is recomputed from the
    accumulation on every event. *)
Definition compute_table (acc : gmap string ChannelDef) : RoutingTable :=
  subscribers <$> acc.

(** Modelled from the spec: one reconciliation step; it returns the controller
    after the event and the handler after the publication. *)
Definition reconcile (e : WatchEvent) (c : Controller) (h : Handler)
  : Controller * Handler :=
  let acc := accumulate e (accumulated c) in
  ({| bound_to := bound_to c; accumulated := acc |}, set (compute_table acc) h).

(** Modelled from the spec: [inmemorychannel.NewController] returns a
    controller bound to the dispatcher it is given, knowing no channel yet. *)
Definition NewController (d : Dispatcher) : Controller :=
  {| bound_to := d; accumulated := ∅ |}.

End Reconciler.

Import Reconciler.

(** ** The world outside [main] *)

(** The command line after [flag.Parse].  [hardcodedLoggingConfig] is a
    [*bool]; [None] is the nil pointer. *)
Record Flags := mkFlags {
  hardcodedLoggingConfig : option bool;
  masterURL : string;
  kubeconfig : string
}.

(** What the collaborators answer in one execution, and the constants of the
    packages that are not part of this program. *)
Record World := mkWorld {
  (* k8s.io/client-go/rest *)
  rest_DefaultQPS : Q;
  rest_DefaultBurst : Z;
  (* pkg/logconfig *)
  logconfig_ConfigMapName : string;
  logconfig_Controller : string;
  (* knative/pkg/configmap, knative/pkg/logging *)
  configmap_Load : string -> Result ConfigMap;
  logging_NewConfigFromMap : ConfigMap -> option Error;
  (* k8s.io/client-go/tools/clientcmd *)
  clientcmd_BuildConfigFromFlags : string -> string -> Result RestConfig;
  (* pkg/provisioners/swappable *)
  swappable_NewEmptyHandler : option Error;
  (* pkg/reconciler: [None] when the options are returned; [Some status] when
     the call does not return and the process ends there with that status,
     which is positive *)
  reconciler_NewOptionsOrDie : RestConfig -> option positive;
  (* pkg/tracing *)
  tracing_SetupDynamicZipkinPublishing : option Error;
  (* the ConfigMapWatcher of the reconciler options *)
  ConfigMapWatcher_Start : option Error;
  (* knative/pkg/controller *)
  kncontroller_StartInformers : option Error;
  (* the watch events delivered until the stop channel closes, each with the
     index of the controller whose work queue receives it *)
  watch_stream : list (nat * WatchEvent)
}.

(** ** The log of an execution *)

(** One event per call [main] makes, in the order of the calls; the event of a
    fallible call is written when the call is made, before its answer is
    looked at.  [EvInformersSynced] marks that [StartInformers] returned
    without error, that is, that the initial sync is complete.
    [EvGoDispatcherStart] is the [go] statement that hands the dispatcher's
    [Start] to its goroutine.  [EvPublish i t] and [EvControllerReturned i]
    happen inside [StartAll]: controller [i] publishes table [t] through the
    handler, and controller [i] returns from its run loop.  [EvLoggerSync] is
    the deferred [logger.Sync], which runs only when [main] returns.
    [EvFatal] is an entry written at the fatal level. *)
Inductive Event :=
| EvFlagParse
| EvConfigmapLoad (path : string)
| EvNewConfigFromMap (cm : ConfigMap)
| EvNewLoggerFromConfig (component : string)
| EvSetupSignalHandler
| EvBuildConfigFromFlags (master kubecfg : string)
| EvNewEmptyHandler
| EvNewDispatcher (args : InMemoryDispatcherArgs)
| EvInfo (msg : string)
| EvNewOptionsOrDie (cfg : RestConfig)
| EvNewSharedInformerFactory
| EvInMemoryChannelsInformer
| EvNewController (d : Dispatcher)
| EvConfigMapWatcherWatch (name : string)
| EvSetupDynamicZipkinPublishing (service : string)
| EvConfigMapWatcherStart
| EvStartInformers
| EvInformersSynced
| EvGoDispatcherStart (d : Dispatcher)
| EvStartAll (n : nat)
| EvPublish (i : nat) (t : RoutingTable)
| EvControllerReturned (i : nat)
| EvStartAllReturned
| EvDispatcherStop (d : Dispatcher)
| EvLoggerSync
| EvFatal (msg : string) (fields : list Error).

(** ** The monad of [main] *)

Inductive Outcome (A : Type) : Type :=
| Returned (a : A)
| Exited (status : Z).
Arguments Returned {A} a.
Arguments Exited {A} status.

(** What a computation leaves behind: how it ended, the handler as it is then
    ([None] while no handler exists), and the events it produced, oldest
    first. *)
Record Run (A : Type) : Type := mkRun {
  outcome : Outcome A;
  handler : option Handler;
  trace : list Event
}.
Arguments mkRun {A}.
Arguments outcome {A}.
Arguments handler {A}.
Arguments trace {A}.

Definition M (A : Type) : Type := option Handler -> Run A.

#[global] Instance M_ret : MRet M := fun A a h => mkRun (Returned a) h [].

#[global] Instance M_bind : MBind M := fun A B f m h =>
  match m h with
  | mkRun (Returned a) h' t =>
      match f a h' with
      | mkRun o h'' t' => mkRun o h'' (t ++ t')
      end
  | mkRun (Exited status) h' t => mkRun (Exited status) h' t
  end.

Definition emit (e : Event) : M unit :=
  fun h => mkRun (Returned tt) h [e].

(** [os.Exit]. *)
Definition os_Exit {A} (status : Z) : M A :=
  fun h => mkRun (Exited status) h [].

(** [logger.Fatal], [logger.Fatalw], [logger.Fatalf] and [log.Fatalf]: the
    entry is written, then the process exits with status 1.  [fields] are the
    errors attached to the entry with [zap.Error]; the two [Fatalf] calls
    format the error into the message instead. *)
Definition fatal {A} (msg : string) (fields : list Error) : M A :=
  emit (EvFatal msg fields);; os_Exit 1%Z.

Definition put_handler (h : Handler) : M unit :=
  fun _ => mkRun (Returned tt) (Some h) [].

Definition get_handler : M (option Handler) :=
  fun h => mkRun (Returned h) h [].

(** A process starts with no handler. *)
Definition exec {A} (m : M A) : Run A := m None.

(** ** Logging set-up *)

Definition tab : string := String (ascii_of_nat 9) EmptyString.
Definition newline : string := String (ascii_of_nat 10) EmptyString.
Definition quote : string := String (ascii_of_nat 34) EmptyString.

Definition quoted (s : string) : string := quote ++ s ++ quote.

Fixpoint tabs (n : nat) : string :=
  match n with O => EmptyString | S n' => tab ++ tabs n' end.

(** One line of a raw string literal: the line break that precedes it, its
    indentation and its text. *)
Definition raw_line (indent : nat) (text : string) : string :=
  newline ++ tabs indent ++ text.

Definition json_field (indent : nat) (key value : string) (sep : string) : string :=
  raw_line indent (quoted key ++ ": " ++ value ++ sep).

(** The raw string literal bound to ["zap-logger-config"], byte for byte. *)
Definition hardcoded_zap_logger_config : string :=
  raw_line 4 "{" ++
  json_field 5 "level" (quoted "info") "," ++
  json_field 5 "development" "false" "," ++
  json_field 5 "outputPaths" ("[" ++ quoted "stdout" ++ "]") "," ++
  json_field 5 "errorOutputPaths" ("[" ++ quoted "stderr" ++ "]") "," ++
  json_field 5 "encoding" (quoted "json") "," ++
  raw_line 5 (quoted "encoderConfig" ++ ": {") ++
  json_field 5 "timeKey" (quoted "ts") "," ++
  json_field 5 "levelKey" (quoted "level") "," ++
  json_field 5 "nameKey" (quoted "logger") "," ++
  json_field 5 "callerKey" (quoted "caller") "," ++
  json_field 5 "messageKey" (quoted "msg") "," ++
  json_field 5 "stacktraceKey" (quoted "stacktrace") "," ++
  json_field 5 "lineEnding" (quoted EmptyString) "," ++
  json_field 5 "levelEncoder" (quoted EmptyString) "," ++
  json_field 5 "timeEncoder" (quoted "iso8601") "," ++
  json_field 5 "durationEncoder" (quoted EmptyString) "," ++
  json_field 5 "callerEncoder" (quoted EmptyString) EmptyString ++
  raw_line 4 "}".

Definition hardcoded_logging_config : ConfigMap :=
  <["loglevel.controller" := "info"]>
    (<["zap-logger-config" := hardcoded_zap_logger_config]> ∅).

(** [configmap.Load]: the call is logged and the world's answer returned. *)
Definition call_configmap_Load (w : World) (path : string) : M (Result ConfigMap) :=
  emit (EvConfigmapLoad path);; mret (configmap_Load w path).

Definition getLoggingConfigOrDie (f : Flags) (w : World) : M ConfigMap :=
  match hardcodedLoggingConfig f with
  | Some true => mret hardcoded_logging_config
  | _ =>
      r ← call_configmap_Load w "/etc/config-logging";
      match r with
      | Err err => fatal ("Error loading logging configuration: " ++ err) []
      | Ok cm => mret cm
      end
  end.

(** The logger and its atomic level are used by [main] only to write entries
    and to hand them to collaborators; the pair is kept abstract. *)
Definition setupLogger (f : Flags) (w : World) : M unit :=
  loggingConfigMap ← getLoggingConfigOrDie f w;
  emit (EvNewConfigFromMap loggingConfigMap);;
  match logging_NewConfigFromMap w loggingConfigMap with
  | Some err => fatal ("Error parsing logging configuration: " ++ err) []
  | None => emit (EvNewLoggerFromConfig (logconfig_Controller w))
  end.

(** ** Collaborators called by [main] *)

Definition emit_all (es : list Event) : M unit :=
  fun h => mkRun (Returned tt) h es.

(** Modelled from the spec: the run loop of a controller is in
    [pkg/reconciler/inmemorychannel/dispatcher], which is not among the
    sources.  One watch event reaches the controller at index [ie.1]: that
    controller reconciles and publishes the recomputed table through the
    handler.  An index past the end of the list reaches no controller. *)
Definition deliver (cs : list Controller) (ie : nat * WatchEvent)
  : M (list Controller) :=
  match cs !! ie.1 with
  | None => mret cs
  | Some c =>
      oh ← get_handler;
      match oh with
      | None => mret cs
      | Some h =>
          let ch := reconcile ie.2 c h in
          put_handler ch.2;;
          emit (EvPublish ie.1 (get ch.2));;
          mret (<[ie.1 := ch.1]> cs)
      end
  end.

Fixpoint run_controllers (cs : list Controller) (stream : list (nat * WatchEvent))
  : M (list Controller) :=
  match stream with
  | [] => mret cs
  | ie :: stream' => cs' ← deliver cs ie; run_controllers cs' stream'
  end.

(** [kncontroller.StartAll] (knative/pkg, outside this program), by its
    contract: every controller runs until the stop channel closes, and the
    call returns once all of them have returned. *)
Definition kncontroller_StartAll (w : World) (cs : list Controller) : M unit :=
  emit (EvStartAll (length cs));;
  run_controllers cs (watch_stream w);;
  emit_all (EvControllerReturned <$> seq 0 (length cs));;
  emit EvStartAllReturned.

(** ** [main] *)

Definition readTimeout : Duration := (1 * time_Minute)%Z.
Definition writeTimeout : Duration := (1 * time_Minute)%Z.
Definition port : Z := 8080%Z.

Definition numControllers : Z := 1%Z.

(** The elements of the [controllers] array literal, each as a function of the
    dispatcher it is handed. *)
Definition controllers : list (Dispatcher -> Controller) := [NewController].

(** Go rejects an array type whose constant length is negative. *)
Definition array_length_ok (len : Z) : bool := (0 <=? len)%Z.

(** [var _ [numControllers - len(controllers)][len(controllers) - numControllers]int] *)
Definition controllers_assertion (declared : Z) (len_controllers : Z) : bool :=
  array_length_ok (declared - len_controllers)
  && array_length_ok (len_controllers - declared).

(** The body of [main], statement by statement.  The constant
    [numControllers] and the array literal [controllers] are its two
    parameters, so that the array-length assertion can be stated for any pair
    of them; [main] below is the body at the program's own two values.  The
    deferred [logger.Sync] is the last event of an execution that returns;
    [os.Exit] runs no deferred call. *)
Definition main_body (declared : Z) (literal : list (Dispatcher -> Controller))
    (f : Flags) (w : World) : M unit :=
  emit EvFlagParse;;
  setupLogger f w;;
  emit EvSetupSignalHandler;;
  emit (EvBuildConfigFromFlags (masterURL f) (kubeconfig f));;
  cfg ← match clientcmd_BuildConfigFromFlags w (masterURL f) (kubeconfig f) with
        | Err err => fatal "Error building kubeconfig" [err]
        | Ok cfg => mret cfg
        end;
  emit EvNewEmptyHandler;;
  sh ← match swappable_NewEmptyHandler w with
       | Some err => fatal "Error creating swappable.Handler" [err]
       | None => put_handler NewEmptyHandler;; mret NewEmptyHandler
       end;
  let args := {| Port := port;
                 ReadTimeout := readTimeout;
                 WriteTimeout := writeTimeout;
                 Handler_ := sh |} in
  let inMemoryDispatcher := dispatcher_NewDispatcher args in
  emit (EvNewDispatcher args);;
  emit (EvInfo "Starting the InMemory dispatcher");;
  let cfg := {| Host := Host cfg;
                QPS := inject_Z declared * rest_DefaultQPS w;
                Burst := declared * rest_DefaultBurst w |} in
  emit (EvNewOptionsOrDie cfg);;
  match reconciler_NewOptionsOrDie w cfg with
  | Some status => os_Exit (Z.pos status)
  | None => mret tt
  end;;
  emit EvNewSharedInformerFactory;;
  emit EvInMemoryChannelsInformer;;
  let cs := (λ new, new inMemoryDispatcher) <$> literal in
  emit_all ((λ _, EvNewController inMemoryDispatcher) <$> literal);;
  emit (EvConfigMapWatcherWatch (logconfig_ConfigMapName w));;
  emit (EvSetupDynamicZipkinPublishing "imc-dispatcher");;
  match tracing_SetupDynamicZipkinPublishing w with
  | Some err => fatal "Error setting up Zipkin publishing" [err]
  | None => mret tt
  end;;
  emit EvConfigMapWatcherStart;;
  match ConfigMapWatcher_Start w with
  | Some err => fatal "failed to start configuration manager" [err]
  | None => mret tt
  end;;
  emit (EvInfo "Starting informers.");;
  emit EvStartInformers;;
  match kncontroller_StartInformers w with
  | Some err => fatal ("Failed to start informers: " ++ err) []
  | None => emit EvInformersSynced
  end;;
  emit (EvGoDispatcherStart inMemoryDispatcher);;
  emit (EvInfo "Starting controllers.");;
  kncontroller_StartAll w cs;;
  emit (EvDispatcherStop inMemoryDispatcher);;
  emit EvLoggerSync.

(** What the compiler makes of the program: nothing when the array-length
    assertion is rejected. *)
Definition go_build (declared : Z) (literal : list (Dispatcher -> Controller))
  : option (Flags -> World -> M unit) :=
  if controllers_assertion declared (Z.of_nat (length literal))
  then Some (main_body declared literal)
  else None.

Definition main : Flags -> World -> M unit := main_body numControllers controllers.

Local Close Scope string_scope.

(** ** Reading a trace *)

(** The tables published in a trace, oldest first. *)
Definition publication (e : Event) : option RoutingTable :=
  match e with EvPublish _ t => Some t | _ => None end.

Definition published (t : list Event) : list RoutingTable := omap publication t.

(** The dispatcher arguments and the client configurations a trace shows. *)
Definition dispatcher_args (e : Event) : option InMemoryDispatcherArgs :=
  match e with EvNewDispatcher args => Some args | _ => None end.

Definition client_config (e : Event) : option RestConfig :=
  match e with EvNewOptionsOrDie cfg => Some cfg | _ => None end.

(** The steps of start-up, in the order the specification gives them. *)
Inductive Startup :=
| HandlerConstructed
| DispatcherConstructed (args : InMemoryDispatcherArgs)
| ControllerConstructed (d : Dispatcher)
| ConfigWatcherStarted
| InformersStarted
| InformersSynced
| DispatcherStarted (d : Dispatcher).

Definition startup (e : Event) : option Startup :=
  match e with
  | EvNewEmptyHandler => Some HandlerConstructed
  | EvNewDispatcher args => Some (DispatcherConstructed args)
  | EvNewController d => Some (ControllerConstructed d)
  | EvConfigMapWatcherStart => Some ConfigWatcherStarted
  | EvStartInformers => Some InformersStarted
  | EvInformersSynced => Some InformersSynced
  | EvGoDispatcherStart d => Some (DispatcherStarted d)
  | _ => None
  end.

(** The steps of the running and draining phases. *)
Inductive Shutdown :=
| ControllersStarted (n : nat)
| TablePublished
| ControllerReturned (i : nat)
| ControllersJoined
| DispatcherStopped (d : Dispatcher).

Definition shutdown (e : Event) : option Shutdown :=
  match e with
  | EvStartAll n => Some (ControllersStarted n)
  | EvPublish _ _ => Some TablePublished
  | EvControllerReturned i => Some (ControllerReturned i)
  | EvStartAllReturned => Some ControllersJoined
  | EvDispatcherStop d => Some (DispatcherStopped d)
  | _ => None
  end.

(** The fallible calls of start-up. *)
Inductive StartupCall :=
| CallBuildConfig
| CallNewEmptyHandler
| CallSetupZipkin
| CallWatcherStart
| CallStartInformers.

Definition startup_call (e : Event) : option StartupCall :=
  match e with
  | EvBuildConfigFromFlags _ _ => Some CallBuildConfig
  | EvNewEmptyHandler => Some CallNewEmptyHandler
  | EvSetupDynamicZipkinPublishing _ => Some CallSetupZipkin
  | EvConfigMapWatcherStart => Some CallWatcherStart
  | EvStartInformers => Some CallStartInformers
  | _ => None
  end.

(** What [main] hands to the dispatcher, and the dispatcher it gets. *)
Definition main_args : InMemoryDispatcherArgs :=
  {| Port := port;
     ReadTimeout := readTimeout;
     WriteTimeout := writeTimeout;
     Handler_ := NewEmptyHandler |}.

Definition main_dispatcher : Dispatcher := dispatcher_NewDispatcher main_args.

Definition startup_order : list Startup :=
  [ HandlerConstructed;
    DispatcherConstructed main_args;
    ControllerConstructed main_dispatcher;
    ConfigWatcherStarted;
    InformersStarted;
    InformersSynced;
    DispatcherStarted main_dispatcher ].

(** Controllers are started, any number of tables is published, the one
    controller returns, [StartAll] returns, and only then the dispatcher is
    stopped. *)
Definition shutdown_order (publications : nat) : list Shutdown :=
  ControllersStarted 1
  :: replicate publications TablePublished
  ++ [ ControllerReturned 0; ControllersJoined; DispatcherStopped main_dispatcher ].

Definition startup_calls : list StartupCall :=
  [ CallBuildConfig; CallNewEmptyHandler; CallSetupZipkin; CallWatcherStart;
    CallStartInformers ].

(** The event is the publication of a table. *)
Definition is_publication (e : Event) : Prop :=
  match e with EvPublish _ _ => True | _ => False end.

(** The table in effect after a run that started from table [t0]. *)
Definition in_effect (t0 : RoutingTable) (t : list Event) : RoutingTable :=
  default t0 (last (published t)).

(** The number of controllers [StartAll] is given. *)
Definition started_controllers (e : Event) : option nat :=
  match e with EvStartAll n => Some n | _ => None end.

(** The client configuration after the two assignments to [cfg.QPS] and
    [cfg.Burst]. *)
Definition scaled (declared : Z) (w : World) (cfg : RestConfig) : RestConfig :=
  {| Host := Host cfg;
     QPS := inject_Z declared * rest_DefaultQPS w;
     Burst := declared * rest_DefaultBurst w |}.

(** An argument of the dispatcher is configurable when two executions of
    [main], whatever their command lines and worlds, can give it different
    values. *)
Definition configurable {A} (field : InMemoryDispatcherArgs -> A) : Prop :=
  exists f1 w1 f2 w2 a1 a2,
    EvNewDispatcher a1 ∈ trace (exec (main f1 w1))
    /\ EvNewDispatcher a2 ∈ trace (exec (main f2 w2))
    /\ field a1 <> field a2.

(** One of the five conditions holds: the world's answer to the call is an
    error. *)
Definition startup_failure (f : Flags) (w : World) : Prop :=
  (exists err, clientcmd_BuildConfigFromFlags w (masterURL f) (kubeconfig f) = Err err)
  \/ is_Some (swappable_NewEmptyHandler w)
  \/ is_Some (tracing_SetupDynamicZipkinPublishing w)
  \/ is_Some (ConfigMapWatcher_Start w)
  \/ is_Some (kncontroller_StartInformers w).

(** The last two events of a trace. *)
Definition last_two (t : list Event) : list Event := drop (length t - 2) t.

(** ** Two concrete executions *)

Definition no_flags : Flags :=
  {| hardcodedLoggingConfig := Some false;
     masterURL := EmptyString;
     kubeconfig := EmptyString |}.

(** Every collaborator succeeds; channel [A] is added twice, updated and
    deleted before the stop signal. *)
Definition healthy_world : World :=
  {| rest_DefaultQPS := 5;
     rest_DefaultBurst := 10;
     logconfig_ConfigMapName := "config-logging";
     logconfig_Controller := "controller";
     configmap_Load := fun _ => Ok ∅;
     logging_NewConfigFromMap := fun _ => None;
     clientcmd_BuildConfigFromFlags :=
       fun _ _ => Ok {| Host := "https://10.0.0.1"; QPS := 0; Burst := 0 |};
     swappable_NewEmptyHandler := None;
     reconciler_NewOptionsOrDie := fun _ => None;
     tracing_SetupDynamicZipkinPublishing := None;
     ConfigMapWatcher_Start := None;
     kncontroller_StartInformers := None;
     watch_stream :=
       [ (0%nat, Added "A" {| subscribers := ["endpoint1"%string] |});
         (0%nat, Added "A" {| subscribers := ["endpoint1"%string] |});
         (0%nat, Updated "A" {| subscribers := ["endpoint1"; "endpoint2"]%string |});
         (0%nat, Deleted "A") ] |}.

(** As [healthy_world], but the informers fail to start. *)
Definition unsynced_world : World :=
  {| rest_DefaultQPS := 5;
     rest_DefaultBurst := 10;
     logconfig_ConfigMapName := "config-logging";
     logconfig_Controller := "controller";
     configmap_Load := fun _ => Ok ∅;
     logging_NewConfigFromMap := fun _ => None;
     clientcmd_BuildConfigFromFlags :=
       fun _ _ => Ok {| Host := "https://10.0.0.1"; QPS := 0; Burst := 0 |};
     swappable_NewEmptyHandler := None;
     reconciler_NewOptionsOrDie := fun _ => None;
     tracing_SetupDynamicZipkinPublishing := None;
     ConfigMapWatcher_Start := None;
     kncontroller_StartInformers := Some "timed out waiting for caches"%string;
     watch_stream := [] |}.

(** ** Further readings of a trace *)


(** The life of the dispatcher service: its [Start] and its [Stop]. *)
Inductive Service :=
| ServiceStarted (d : Dispatcher)
| ServiceStopped (d : Dispatcher).

Definition service (e : Event) : option Service :=
  match e with
  | EvGoDispatcherStart d => Some (ServiceStarted d)
  | EvDispatcherStop d => Some (ServiceStopped d)
  | _ => None
  end.

(** What is done with the config-map watcher. *)
Inductive Watcher :=
| Watched (name : string)
| TracingSetUp (service_name : string)
| WatcherStarted.

Definition watcher (e : Event) : option Watcher :=
  match e with
  | EvConfigMapWatcherWatch name => Some (Watched name)
  | EvSetupDynamicZipkinPublishing s => Some (TracingSetUp s)
  | EvConfigMapWatcherStart => Some WatcherStarted
  | _ => None
  end.



(** The number of brackets left open at the end of a JSON text, [None] if a
    bracket is closed that was never opened.  Brackets inside string literals
    do not count; a backslash inside a string literal escapes the next
    character. *)
Fixpoint open_brackets (s : string) (in_string escaped : bool) (depth : nat)
  : option nat :=
  match s with
  | EmptyString => Some depth
  | String c rest =>
      if in_string then
        if escaped then open_brackets rest true false depth
        else if Ascii.eqb c "\"%char then open_brackets rest true true depth
        else if Ascii.eqb c (ascii_of_nat 34) then open_brackets rest false false depth
        else open_brackets rest true false depth
      else if Ascii.eqb c (ascii_of_nat 34) then open_brackets rest true false depth
      else if Ascii.eqb c "{"%char || Ascii.eqb c "["%char
      then open_brackets rest false false (S depth)
      else if Ascii.eqb c "}"%char || Ascii.eqb c "]"%char
      then match depth with
           | O => None
           | S depth' => open_brackets rest false false depth'
           end
      else open_brackets rest false false depth
  end.

(** * Properties *)

(** ** The monad *)

(** The three monad laws, pointwise. *)
Lemma M_left_identity {A B} (a : A) (k : A -> M B) (h : option Handler) :
  (mret a ≫= k) h = k a h.
Proof. unfold mbind, M_bind, mret, M_ret. destruct (k a h). reflexivity. Qed.

Lemma M_right_identity {A} (m : M A) (h : option Handler) :
  (m ≫= mret) h = m h.
Proof.
  unfold mbind, M_bind, mret, M_ret. destruct (m h) as [[a|status] h' t]; [|reflexivity].
  rewrite app_nil_r. reflexivity.
Qed.

Lemma M_associativity {A B C} (m : M A) (k1 : A -> M B) (k2 : B -> M C)
    (h : option Handler) :
  ((m ≫= k1) ≫= k2) h = (m ≫= (fun a => k1 a ≫= k2)) h.
Proof.
  unfold mbind, M_bind. destruct (m h) as [[a|status] h1 t1]; [|reflexivity].
  destruct (k1 a h1) as [[b|status] h2 t2]; [|reflexivity].
  destruct (k2 b h2) as [o h3 t3]. rewrite app_assoc. reflexivity.
Qed.

(** ** The reconciliation step and the handler *)

Section Handler.

Lemma get_set (t : RoutingTable) (h : Handler) : get (set t h) = t.
Proof. reflexivity. Qed.

Lemma set_set (t1 t2 : RoutingTable) (h : Handler) :
  set t2 (set t1 h) = set t2 h.
Proof. reflexivity. Qed.

Lemma accumulate_twice (e : WatchEvent) (acc : gmap string ChannelDef) :
  accumulate e (accumulate e acc) = accumulate e acc.
Proof.
  destruct e as [id def|id def|id]; simpl.
  - apply insert_insert_eq.
  - apply insert_insert_eq.
  - apply delete_delete_eq.
Qed.

Lemma reconcile_publishes (e : WatchEvent) (c : Controller) (h : Handler) :
  get (reconcile e c h).2 = compute_table (accumulated (reconcile e c h).1).
Proof. reflexivity. Qed.

Lemma reconcile_twice (e : WatchEvent) (c : Controller) (h : Handler) :
  reconcile e (reconcile e c h).1 (reconcile e c h).2 = reconcile e c h.
Proof.
  unfold reconcile; simpl. rewrite accumulate_twice. reflexivity.
Qed.

End Handler.

(** ** The controllers between [StartAll] and its return *)

Section Controllers.

Lemma in_effect_app t0 t1 t2 :
  in_effect t0 (t1 ++ t2) = in_effect (in_effect t0 t1) t2.
Proof.
  unfold in_effect, published. rewrite omap_app.
  destruct (omap publication t2) as [|x l] eqn:E using rev_ind.
  - rewrite app_nil_r. reflexivity.
  - rewrite app_assoc, !last_snoc. reflexivity.
Qed.

Lemma deliver_run cs ie h :
  exists cs' h' pubs,
    deliver cs ie (Some h) = mkRun (Returned cs') (Some h') pubs
    /\ length cs' = length cs
    /\ Forall is_publication pubs
    /\ get h' = in_effect (get h) pubs.
Proof.
  unfold deliver. destruct (cs !! ie.1) as [c|] eqn:Hc.
  - exists (<[ie.1 := (reconcile ie.2 c h).1]> cs), (reconcile ie.2 c h).2,
      [EvPublish ie.1 (get (reconcile ie.2 c h).2)].
    repeat split.
    + apply length_insert.
    + repeat constructor.
  - exists cs, h, []. repeat split. constructor.
Qed.

Lemma run_controllers_run stream : forall cs h,
  exists cs' h' pubs,
    run_controllers cs stream (Some h) = mkRun (Returned cs') (Some h') pubs
    /\ length cs' = length cs
    /\ Forall is_publication pubs
    /\ get h' = in_effect (get h) pubs.
Proof.
  induction stream as [|ie stream IH]; intros cs h.
  - exists cs, h, []. repeat split. constructor.
  - destruct (deliver_run cs ie h) as (cs1 & h1 & p1 & E1 & L1 & F1 & G1).
    destruct (IH cs1 h1) as (cs2 & h2 & p2 & E2 & L2 & F2 & G2).
    exists cs2, h2, (p1 ++ p2).
    split; [|split; [|split]].
    + simpl. unfold mbind, M_bind. rewrite E1, E2. reflexivity.
    + congruence.
    + apply Forall_app; auto.
    + rewrite in_effect_app, <- G1. exact G2.
Qed.

(** A projection of the trace that does not look at publications sees
    nothing of the controllers' work. *)
Lemma omap_publications {B} (m : Event -> option B) (pubs : list Event) :
  (forall i t, m (EvPublish i t) = None) ->
  Forall is_publication pubs -> omap m pubs = [].
Proof.
  intros Hm. induction 1 as [|e l He _ IH]; [reflexivity|].
  destruct e; try contradiction. simpl. rewrite Hm. exact IH.
Qed.

Lemma shutdown_publications (pubs : list Event) :
  Forall is_publication pubs ->
  omap shutdown pubs = replicate (length pubs) TablePublished.
Proof.
  induction 1 as [|e l He _ IH]; [reflexivity|].
  destruct e; try contradiction. simpl. f_equal. exact IH.
Qed.

End Controllers.

Lemma StartAll_run (w : World) (cs : list Controller) (h : Handler) :
  exists h' pubs,
    kncontroller_StartAll w cs (Some h)
    = mkRun (Returned tt) (Some h')
        (EvStartAll (length cs)
         :: pubs ++ (EvControllerReturned <$> seq 0 (length cs)) ++ [EvStartAllReturned])
    /\ Forall is_publication pubs
    /\ get h' = in_effect (get h) pubs.
Proof.
  destruct (run_controllers_run (watch_stream w) cs h) as (cs' & h' & pubs & E & _ & F & G).
  exists h', pubs. split; [|split]; [|exact F|exact G].
  unfold kncontroller_StartAll, mbind, M_bind, emit, emit_all.
  rewrite E. simpl. reflexivity.
Qed.

(** ** Running [main] symbolically *)

(** Unfold the program down to the answers of the world. *)
Ltac unfold_main :=
  cbv [exec main controllers main_body setupLogger getLoggingConfigOrDie
       call_configmap_Load fatal mbind M_bind mret M_ret emit emit_all os_Exit
       put_handler get_handler];
  cbn [outcome handler trace app].

(** Split on the answer [x] if the goal still depends on it. *)
Ltac answer x :=
  match goal with
  | |- context [x] => destruct x eqn:?; cbn [outcome handler trace app]
  | _ => idtac
  end.

(** Every execution of the body of [main]: one goal per answer the world can
    give, in program order. *)
Ltac run_main f w :=
  unfold_main;
  destruct (hardcodedLoggingConfig f) as [[|]|] eqn:?;
  cbn [outcome handler trace app];
  answer (configmap_Load w "/etc/config-logging"%string);
  match goal with
  | |- context [logging_NewConfigFromMap w ?cm] => answer (logging_NewConfigFromMap w cm)
  | _ => idtac
  end;
  answer (clientcmd_BuildConfigFromFlags w (masterURL f) (kubeconfig f));
  answer (swappable_NewEmptyHandler w);
  match goal with
  | |- context [reconciler_NewOptionsOrDie w ?cfg] => answer (reconciler_NewOptionsOrDie w cfg)
  | _ => idtac
  end;
  answer (tracing_SetupDynamicZipkinPublishing w);
  answer (ConfigMapWatcher_Start w);
  answer (kncontroller_StartInformers w);
  match goal with
  | |- context [kncontroller_StartAll w ?cs (Some ?h)] =>
      let h' := fresh "h'" in
      let pubs := fresh "pubs" in
      let Hrun := fresh "Hrun" in
      let Hpubs := fresh "Hpubs" in
      let Heff := fresh "Heff" in
      destruct (StartAll_run w cs h) as (h' & pubs & Hrun & Hpubs & Heff);
      rewrite Hrun; cbn [outcome handler trace app]
  | _ => idtac
  end.

(** ** Orders of events *)

Section Orders.

Context {K : Type} (m : Event -> option K).

(** If [y] occurs once in a list, the list splits around it in one way. *)
Lemma split_unique (y : K) (l1 l2 o1 o2 : list K) :
  l1 ++ y :: l2 = o1 ++ y :: o2 -> y ∉ o1 -> y ∉ o2 -> l1 = o1 /\ l2 = o2.
Proof.
  revert o1. induction l1 as [|a l1 IH]; intros [|b o1] E H1 H2; simpl in E.
  - injection E as E. auto.
  - injection E as E1 E2. subst b. exfalso. apply H1. left.
  - injection E as E1 E2. subst a o2. exfalso. apply H2.
    apply elem_of_app. right. left.
  - injection E as E1 E2. subst b.
    destruct (IH o1 E2) as [-> ->]; auto.
    intros Hy. apply H1. right. exact Hy.
Qed.

(** A trace whose steps follow an order in which step [y] occurs once: at the
    event that performs [y], the steps before it in the order have all been
    performed, in that order, and what follows performs only later steps. *)
Lemma order_split (t : list Event) (o1 o2 : list K) (y : K) pre e post :
  omap m t `prefix_of` o1 ++ y :: o2 -> y ∉ o1 -> y ∉ o2 ->
  t = pre ++ e :: post -> m e = Some y ->
  omap m pre = o1 /\ omap m post `prefix_of` o2.
Proof.
  intros [k Hk] H1 H2 -> He.
  rewrite omap_app in Hk. simpl in Hk. rewrite He in Hk. simpl in Hk.
  rewrite <- app_assoc in Hk. simpl in Hk. symmetry in Hk.
  destruct (split_unique _ _ _ _ _ Hk H1 H2) as [E1 E2].
  split; [exact E1|]. exists k. symmetry. exact E2.
Qed.

Lemma step_of_prefix (t : list Event) (order : list K) e y :
  omap m t `prefix_of` order -> e ∈ t -> m e = Some y -> y ∈ order.
Proof.
  intros [k ->] He Hy. apply elem_of_app. left.
  apply list_elem_of_omap. exists e. auto.
Qed.

End Orders.

(** ** Start-up and shut-down orders of [main] *)

(** Compute a projection [m] of the trace at hand. *)
Ltac read_trace m :=
  simpl; repeat (rewrite omap_app; simpl);
  try match goal with
  | Hpubs : Forall is_publication ?pubs |- _ =>
      rewrite ?(omap_publications m pubs (fun _ _ => eq_refl) Hpubs); simpl
  end.

Ltac unfold_orders :=
  unfold startup_order, shutdown_order, startup_calls, main_dispatcher,
    main_args, dispatcher_NewDispatcher.

Lemma main_startup (f : Flags) (w : World) :
  omap startup (trace (exec (main f w))) `prefix_of` startup_order
  /\ (outcome (exec (main f w)) = Returned tt ->
      omap startup (trace (exec (main f w))) = startup_order).
Proof.
  run_main f w; (split; [|try discriminate]); read_trace startup;
    solve [ intros _; reflexivity | unfold_orders; eexists; reflexivity ].
Qed.

Lemma main_startup_calls (f : Flags) (w : World) :
  omap startup_call (trace (exec (main f w))) `prefix_of` startup_calls.
Proof.
  run_main f w; read_trace startup_call; unfold_orders; eexists; reflexivity.
Qed.

Lemma main_shutdown (f : Flags) (w : World) :
  exists n,
    omap shutdown (trace (exec (main f w))) `prefix_of` shutdown_order n
    /\ (outcome (exec (main f w)) = Returned tt ->
        omap shutdown (trace (exec (main f w))) = shutdown_order n).
Proof.
  run_main f w;
    try (exists 0%nat; split; [|discriminate]; read_trace shutdown;
         unfold_orders; eexists; reflexivity).
  all: exists (length pubs); simpl; rewrite ?omap_app; simpl;
    rewrite (shutdown_publications pubs Hpubs), <- ?app_assoc; simpl;
    split; [exists []; rewrite app_nil_r|intros _]; reflexivity.
Qed.

Lemma main_final_table (f : Flags) (w : World) :
  outcome (exec (main f w)) = Returned tt ->
  exists h, handler (exec (main f w)) = Some h
            /\ get h = in_effect ∅ (trace (exec (main f w))).
Proof.
  run_main f w; try discriminate; intros _; exists h'; (split; [reflexivity|]).
  all: rewrite Heff; unfold in_effect, published; simpl;
    rewrite ?omap_app; simpl; rewrite ?app_nil_r; reflexivity.
Qed.

Lemma published_nil (l : list Event) :
  TablePublished ∉ omap shutdown l -> published l = [].
Proof.
  induction l as [|e l IH]; [reflexivity|].
  destruct e; simpl; intros H;
    try (apply IH; intros Hin; apply H; first [exact Hin | right; exact Hin]).
  exfalso. apply H. left.
Qed.

(** C1. Start-up ordering.  In every execution of [main] the steps of start-up
    follow one order: the swappable handler is constructed (empty), the
    dispatcher is constructed bound to it, the controller is constructed bound
    to that dispatcher, the config-map watcher is started, the informers are
    started and have synced, and only then is the dispatcher's [Start] handed
    to its goroutine.  At the moment [Start] is invoked all six earlier steps
    have been taken, the initial sync among them; an execution that returns
    has taken every step. *)
Theorem startup_ordering (f : Flags) (w : World) :
  let r := exec (main f w) in
  omap startup (trace r) `prefix_of` startup_order
  /\ (forall pre d post,
        trace r = pre ++ EvGoDispatcherStart d :: post ->
        d = main_dispatcher
        /\ get (Handler_ (d_args d)) = ∅
        /\ omap startup pre =
             [ HandlerConstructed;
               DispatcherConstructed main_args;
               ControllerConstructed main_dispatcher;
               ConfigWatcherStarted;
               InformersStarted;
               InformersSynced ]
        /\ omap startup post = [])
  /\ (outcome r = Returned tt -> omap startup (trace r) = startup_order).
Proof.
  destruct (main_startup f w) as [Hpre Hall].
  split; [exact Hpre|split; [|exact Hall]].
  intros pre d post Ht.
  assert (d = main_dispatcher) as ->.
  { assert (DispatcherStarted d ∈ startup_order) as Hd.
    { apply (step_of_prefix startup _ _ (EvGoDispatcherStart d) _ Hpre); [|reflexivity].
      rewrite Ht. apply elem_of_app. right. left. }
    unfold startup_order in Hd.
    repeat (apply elem_of_cons in Hd as [Hd|Hd]; [try discriminate|]).
    - injection Hd as ->. reflexivity.
    - apply elem_of_nil in Hd. contradiction. }
  split; [reflexivity|split; [reflexivity|]].
  destruct (order_split startup _
              [ HandlerConstructed; DispatcherConstructed main_args;
                ControllerConstructed main_dispatcher; ConfigWatcherStarted;
                InformersStarted; InformersSynced ]
              [] (DispatcherStarted main_dispatcher) pre
              (EvGoDispatcherStart main_dispatcher) post Hpre)
    as [E1 E2]; [| |exact Ht|reflexivity|].
  - rewrite !not_elem_of_cons. repeat split; try discriminate. apply not_elem_of_nil.
  - apply not_elem_of_nil.
  - split; [exact E1|]. apply prefix_nil_inv. exact E2.
Qed.

(** C2. Shut-down ordering.  In every execution of [main] the running and
    draining steps follow one order: [StartAll] is called with the one
    controller, tables are published, the controller returns, [StartAll]
    returns, and only then is the dispatcher's [Stop] invoked.  So at the
    moment [Stop] is invoked the controller has returned and [StartAll] has
    returned; from the return of [StartAll] on no table is published; and the
    table in effect when [main] returns is the last one published. *)
Theorem shutdown_ordering (f : Flags) (w : World) :
  let r := exec (main f w) in
  (exists n, omap shutdown (trace r) `prefix_of` shutdown_order n)
  /\ (forall pre d post,
        trace r = pre ++ EvDispatcherStop d :: post ->
        d = main_dispatcher
        /\ (exists n, omap shutdown pre =
                        ControllersStarted 1
                        :: replicate n TablePublished
                        ++ [ControllerReturned 0; ControllersJoined])
        /\ published post = [])
  /\ (forall pre post,
        trace r = pre ++ EvStartAllReturned :: post ->
        EvControllerReturned 0 ∈ pre /\ published post = [])
  /\ (outcome r = Returned tt ->
      exists h, handler r = Some h /\ get h = in_effect ∅ (trace r)).
Proof.
  destruct (main_shutdown f w) as (n & Hpre & _).
  split; [exists n; exact Hpre|split; [|split; [|apply main_final_table]]].
  - intros pre d post Ht.
    assert (d = main_dispatcher) as ->.
    { assert (DispatcherStopped d ∈ shutdown_order n) as Hd.
      { apply (step_of_prefix shutdown _ _ (EvDispatcherStop d) _ Hpre); [|reflexivity].
        rewrite Ht. apply elem_of_app. right. left. }
      unfold shutdown_order in Hd.
      apply elem_of_cons in Hd as [Hd|Hd]; [discriminate|].
      apply elem_of_app in Hd as [Hd|Hd].
      - apply elem_of_replicate in Hd as [Hd _]. discriminate.
      - repeat (apply elem_of_cons in Hd as [Hd|Hd]; [try discriminate|]).
        + injection Hd as ->. reflexivity.
        + apply elem_of_nil in Hd. contradiction. }
    split; [reflexivity|].
    destruct (order_split shutdown (trace (exec (main f w)))
                (ControllersStarted 1 :: replicate n TablePublished
                 ++ [ControllerReturned 0; ControllersJoined])
                [] (DispatcherStopped main_dispatcher) pre
                (EvDispatcherStop main_dispatcher) post)
      as [E1 E2]; [| | |exact Ht|reflexivity|].
    + unfold shutdown_order in Hpre. simpl. rewrite <- app_assoc. exact Hpre.
    + rewrite not_elem_of_cons, not_elem_of_app, !not_elem_of_cons.
      repeat split; try discriminate; [|apply not_elem_of_nil].
      intros [? _]%elem_of_replicate. discriminate.
    + apply not_elem_of_nil.
    + split; [exists n; exact E1|].
      apply published_nil. apply prefix_nil_inv in E2. rewrite E2. apply not_elem_of_nil.
  - intros pre post Ht.
    destruct (order_split shutdown (trace (exec (main f w)))
                (ControllersStarted 1 :: replicate n TablePublished
                 ++ [ControllerReturned 0])
                [DispatcherStopped main_dispatcher] ControllersJoined pre
                EvStartAllReturned post)
      as [E1 E2]; [| | |exact Ht|reflexivity|].
    + unfold shutdown_order in Hpre. simpl. rewrite <- app_assoc. exact Hpre.
    + rewrite not_elem_of_cons, not_elem_of_app, !not_elem_of_cons.
      repeat split; try discriminate; [|apply not_elem_of_nil].
      intros [? _]%elem_of_replicate. discriminate.
    + rewrite not_elem_of_cons. split; [discriminate|apply not_elem_of_nil].
    + split.
      * assert (ControllerReturned 0 ∈ omap shutdown pre) as Hin.
        { rewrite E1. right. apply elem_of_app. right. left. }
        apply list_elem_of_omap in Hin as (e & He & Hs).
        destruct e; try discriminate. injection Hs as ->. exact He.
      * apply published_nil. intros Hin.
        destruct E2 as [k E2].
        assert (TablePublished ∈ [DispatcherStopped main_dispatcher]) as Hbad.
        { rewrite E2. apply elem_of_app. left. exact Hin. }
        apply elem_of_cons in Hbad as [Hbad|Hbad]; [discriminate|].
        apply elem_of_nil in Hbad. contradiction.
Qed.

(** ** What [main] hands to its collaborators *)

Lemma omap_fmap_None {A B} (m : Event -> option B) (g : A -> Event) (l : list A) :
  (forall x, m (g x) = None) -> omap m (g <$> l) = [].
Proof.
  intros Hm. induction l as [|x l IH]; [reflexivity|].
  simpl. rewrite Hm. exact IH.
Qed.

(** Compute a projection [m] of the trace of the body of [main] when the
    array literal is not known. *)
Ltac read_body_trace m :=
  read_trace m;
  rewrite ?(omap_fmap_None m) by (intros; reflexivity);
  simpl.

Lemma body_dispatcher_args declared literal (f : Flags) (w : World) :
  omap dispatcher_args (trace (exec (main_body declared literal f w)))
  `prefix_of` [main_args].
Proof.
  run_main f w; read_body_trace dispatcher_args; unfold_orders; eexists; reflexivity.
Qed.

Lemma body_client_config declared literal (f : Flags) (w : World) :
  omap client_config (trace (exec (main_body declared literal f w)))
  `prefix_of`
    match clientcmd_BuildConfigFromFlags w (masterURL f) (kubeconfig f) with
    | Ok cfg => [scaled declared w cfg]
    | Err _ => []
    end.
Proof.
  run_main f w; read_body_trace client_config; unfold scaled; eexists; reflexivity.
Qed.

Lemma body_started_controllers declared literal (f : Flags) (w : World) :
  omap started_controllers (trace (exec (main_body declared literal f w)))
  `prefix_of` [length literal].
Proof.
  run_main f w; read_body_trace started_controllers;
    rewrite ?length_fmap; eexists; reflexivity.
Qed.

Lemma elem_of_prefix_singleton {A} (x y : A) (l : list A) :
  l `prefix_of` [y] -> x ∈ l -> x = y.
Proof.
  intros [k E] Hx. destruct l as [|a [|b l]].
  - apply elem_of_nil in Hx. contradiction.
  - injection E as -> _. apply list_elem_of_singleton in Hx. exact Hx.
  - discriminate.
Qed.

Example healthy_run_returns :
  outcome (exec (main no_flags healthy_world)) = Returned tt
  /\ omap startup (trace (exec (main no_flags healthy_world))) = startup_order
  /\ omap shutdown (trace (exec (main no_flags healthy_world))) = shutdown_order 4
  /\ handler (exec (main no_flags healthy_world)) = Some {| current := ∅ |}.
Proof. vm_compute. auto. Qed.

Example healthy_run_constructs_dispatcher :
  EvNewDispatcher main_args ∈ trace (exec (main no_flags healthy_world)).
Proof. vm_compute. do 7 apply list_elem_of_further. apply list_elem_of_here. Qed.

Example healthy_run_builds_options :
  EvNewOptionsOrDie {| Host := "https://10.0.0.1"; QPS := 5; Burst := 10 |}
  ∈ trace (exec (main no_flags healthy_world)).
Proof. vm_compute. do 9 apply list_elem_of_further. apply list_elem_of_here. Qed.

Example unsynced_run_starts_informers :
  EvStartInformers ∈ trace (exec (main no_flags unsynced_world)).
Proof. vm_compute. do 17 apply list_elem_of_further. apply list_elem_of_here. Qed.

Example unsynced_world_fails : startup_failure no_flags unsynced_world.
Proof. do 4 right. eexists. reflexivity. Qed.

Example unsynced_run_exits :
  outcome (exec (main no_flags unsynced_world)) = Exited 1
  /\ last (trace (exec (main no_flags unsynced_world)))
     = Some (EvFatal "Failed to start informers: timed out waiting for caches" []).
Proof. vm_compute. auto. Qed.

(** ** The controller count *)

Lemma controllers_assertion_spec (declared len : Z) :
  controllers_assertion declared len = true <-> len = declared.
Proof.
  unfold controllers_assertion, array_length_ok.
  rewrite andb_true_iff, !Z.leb_le. lia.
Qed.

(** C3. The controller-count invariant.  The array-length assertion is accepted
    exactly when the array literal has as many elements as the declared count,
    so a program with a mismatch is rejected when it is built and nothing of
    it ever runs; a program that was built hands [StartAll] exactly the
    declared number of controllers in every execution; and in this program
    the declared count is 1 and the literal has one element, so [main] is
    built. *)
Theorem controller_count_invariant :
  (forall declared literal,
     Z.of_nat (length literal) <> declared <-> go_build declared literal = None)
  /\ (forall declared literal program f w n,
        go_build declared literal = Some program ->
        EvStartAll n ∈ trace (exec (program f w)) ->
        Z.of_nat n = declared)
  /\ numControllers = 1%Z
  /\ length controllers = 1%nat
  /\ go_build numControllers controllers = Some main.
Proof.
  split; [|split; [|repeat split]].
  - intros declared literal. unfold go_build.
    destruct (controllers_assertion declared (Z.of_nat (length literal))) eqn:E.
    + apply controllers_assertion_spec in E. split; [contradiction|discriminate].
    + split; [reflexivity|]. intros _ Heq.
      apply controllers_assertion_spec in Heq. congruence.
  - intros declared literal program f w n. unfold go_build.
    destruct (controllers_assertion declared (Z.of_nat (length literal))) eqn:E;
      [|discriminate].
    intros [= <-] Hn. apply controllers_assertion_spec in E. rewrite <- E. f_equal.
    apply (elem_of_prefix_singleton _ _ _ (body_started_controllers declared literal f w)).
    apply list_elem_of_omap. exists (EvStartAll n). split; [exact Hn|reflexivity].
Qed.

(** ** The handler at construction *)

(** C4. The handler [main] constructs through [swappable.NewEmptyHandler] and
    binds the dispatcher to answers [get], before any [set], with a table of
    zero channel entries: a table, in which every channel is unrouted. *)
Theorem handler_initially_empty (f : Flags) (w : World) (args : InMemoryDispatcherArgs) :
  EvNewDispatcher args ∈ trace (exec (main f w)) ->
  Handler_ args = NewEmptyHandler
  /\ get (Handler_ args) = ∅
  /\ size (get (Handler_ args)) = 0%nat
  /\ (forall channel, get (Handler_ args) !! channel = None).
Proof.
  intros Hin.
  assert (args = main_args) as ->.
  { apply (elem_of_prefix_singleton _ _ _ (body_dispatcher_args numControllers controllers f w)).
    apply list_elem_of_omap. exists (EvNewDispatcher args). split; [exact Hin|reflexivity]. }
  split; [reflexivity|split; [reflexivity|split; [reflexivity|]]].
  intros channel. apply lookup_empty.
Qed.

Lemma handler_initially_empty_witness :
  EvNewDispatcher main_args ∈ trace (exec (main no_flags healthy_world))
  /\ Handler_ main_args = NewEmptyHandler
  /\ get (Handler_ main_args) = ∅
  /\ size (get (Handler_ main_args)) = 0%nat
  /\ (forall channel, get (Handler_ main_args) !! channel = None).
Proof.
  split; [exact healthy_run_constructs_dispatcher|].
  apply (handler_initially_empty no_flags healthy_world main_args).
  exact healthy_run_constructs_dispatcher.
Defined.

(** ** The endpoint *)

Lemma main_dispatcher_args (f : Flags) (w : World) (args : InMemoryDispatcherArgs) :
  EvNewDispatcher args ∈ trace (exec (main f w)) -> args = main_args.
Proof.
  intros Hin.
  apply (elem_of_prefix_singleton _ _ _ (body_dispatcher_args numControllers controllers f w)).
  apply list_elem_of_omap. exists (EvNewDispatcher args). split; [exact Hin|reflexivity].
Qed.

(** C9, as stated, fails: none of the service port, the read timeout and the
    write timeout is configurable. *)
Lemma endpoint_not_configurable :
  ~ configurable Port /\ ~ configurable ReadTimeout /\ ~ configurable WriteTimeout.
Proof.
  repeat split; intros (f1 & w1 & f2 & w2 & a1 & a2 & H1 & H2 & Hne);
    apply main_dispatcher_args in H1, H2; subst; apply Hne; reflexivity.
Qed.

(** C9, amended.  Whatever the command line and the world, the dispatcher is
    constructed with service port 8080 and with read and write timeouts of one
    minute (60 000 000 000 ns) each. *)
Theorem endpoint_values (f : Flags) (w : World) (args : InMemoryDispatcherArgs) :
  EvNewDispatcher args ∈ trace (exec (main f w)) ->
  Port args = 8080%Z
  /\ ReadTimeout args = time_Minute
  /\ WriteTimeout args = time_Minute
  /\ time_Minute = (60 * 1000000000)%Z.
Proof.
  intros Hin. apply main_dispatcher_args in Hin. subst. repeat split.
Qed.

Lemma endpoint_values_witness :
  EvNewDispatcher main_args ∈ trace (exec (main no_flags healthy_world))
  /\ Port main_args = 8080%Z
  /\ ReadTimeout main_args = time_Minute
  /\ WriteTimeout main_args = time_Minute
  /\ time_Minute = (60 * 1000000000)%Z.
Proof.
  split; [exact healthy_run_constructs_dispatcher|].
  apply (endpoint_values no_flags healthy_world main_args).
  exact healthy_run_constructs_dispatcher.
Defined.

(** ** The client rate limits *)

Lemma body_scaled declared literal (f : Flags) (w : World) (cfg : RestConfig) :
  EvNewOptionsOrDie cfg ∈ trace (exec (main_body declared literal f w)) ->
  exists cfg0,
    clientcmd_BuildConfigFromFlags w (masterURL f) (kubeconfig f) = Ok cfg0
    /\ cfg = scaled declared w cfg0.
Proof.
  intros Hin.
  assert (cfg ∈ omap client_config (trace (exec (main_body declared literal f w)))) as Hc.
  { apply list_elem_of_omap. exists (EvNewOptionsOrDie cfg). split; [exact Hin|reflexivity]. }
  pose proof (body_client_config declared literal f w) as Hpre.
  destruct (clientcmd_BuildConfigFromFlags w (masterURL f) (kubeconfig f)) as [cfg0|err].
  - exists cfg0. split; [reflexivity|].
    exact (elem_of_prefix_singleton _ _ _ Hpre Hc).
  - apply prefix_nil_inv in Hpre. rewrite Hpre in Hc.
    apply elem_of_nil in Hc. contradiction.
Qed.

(** C10. Client rate limits.  The configuration [main] hands to
    [reconciler.NewOptionsOrDie] is the one [BuildConfigFromFlags] returned
    with its QPS set to [numControllers] times [rest.DefaultQPS] and its Burst
    set to [numControllers] times [rest.DefaultBurst], which here is once the
    defaults; with any declared count in place of [numControllers] the two
    limits are that count times the defaults. *)
Theorem client_rate_limits (f : Flags) (w : World) (cfg : RestConfig) :
  EvNewOptionsOrDie cfg ∈ trace (exec (main f w)) ->
  (exists cfg0,
     clientcmd_BuildConfigFromFlags w (masterURL f) (kubeconfig f) = Ok cfg0
     /\ Host cfg = Host cfg0)
  /\ QPS cfg = (inject_Z numControllers * rest_DefaultQPS w)%Q
  /\ Burst cfg = (numControllers * rest_DefaultBurst w)%Z
  /\ (QPS cfg == rest_DefaultQPS w)%Q
  /\ Burst cfg = rest_DefaultBurst w
  /\ (forall declared literal cfg',
        EvNewOptionsOrDie cfg' ∈ trace (exec (main_body declared literal f w)) ->
        QPS cfg' = (inject_Z declared * rest_DefaultQPS w)%Q
        /\ Burst cfg' = (declared * rest_DefaultBurst w)%Z).
Proof.
  intros Hin. apply body_scaled in Hin as (cfg0 & E & ->).
  split; [exists cfg0; split; [exact E|reflexivity]|].
  split; [reflexivity|split; [reflexivity|split; [|split]]].
  - simpl. unfold numControllers. apply Qmult_1_l.
  - simpl. unfold numControllers. apply Z.mul_1_l.
  - intros declared literal cfg' Hin'.
    apply body_scaled in Hin' as (cfg1 & _ & ->). split; reflexivity.
Qed.

Lemma client_rate_limits_witness :
  let cfg := {| Host := "https://10.0.0.1"; QPS := 5; Burst := 10 |} in
  EvNewOptionsOrDie cfg ∈ trace (exec (main no_flags healthy_world))
  /\ (exists cfg0,
     clientcmd_BuildConfigFromFlags healthy_world (masterURL no_flags) (kubeconfig no_flags)
     = Ok cfg0
     /\ Host cfg = Host cfg0)
  /\ QPS cfg = (inject_Z numControllers * rest_DefaultQPS healthy_world)%Q
  /\ Burst cfg = (numControllers * rest_DefaultBurst healthy_world)%Z
  /\ (QPS cfg == rest_DefaultQPS healthy_world)%Q
  /\ Burst cfg = rest_DefaultBurst healthy_world
  /\ (forall declared literal cfg',
        EvNewOptionsOrDie cfg' ∈ trace (exec (main_body declared literal no_flags healthy_world)) ->
        QPS cfg' = (inject_Z declared * rest_DefaultQPS healthy_world)%Q
        /\ Burst cfg' = (declared * rest_DefaultBurst healthy_world)%Z).
Proof.
  cbv zeta. split; [exact healthy_run_builds_options|].
  apply (client_rate_limits no_flags healthy_world).
  exact healthy_run_builds_options.
Defined.

(** ** Idempotent reconciliation *)

Lemma deliver_twice cs ie h :
  handler (run_controllers cs [ie; ie] (Some h))
  = handler (run_controllers cs [ie] (Some h)).
Proof.
  cbn [run_controllers]. unfold deliver.
  destruct (cs !! ie.1) as [c|] eqn:Hc;
    cbv [mbind M_bind mret M_ret get_handler put_handler emit];
    cbn [outcome handler trace app]; rewrite ?Hc; [|reflexivity].
  rewrite list_lookup_insert_eq by (eapply lookup_lt_Some; exact Hc).
  rewrite reconcile_twice. reflexivity.
Qed.

Lemma run_controllers_replay stream : forall cs ie h,
  handler (run_controllers cs (stream ++ [ie; ie]) (Some h))
  = handler (run_controllers cs (stream ++ [ie]) (Some h)).
Proof.
  induction stream as [|x stream IH]; intros cs ie h.
  - apply deliver_twice.
  - simpl. unfold mbind, M_bind.
    destruct (deliver_run cs x h) as (cs1 & h1 & p1 & E1 & _).
    rewrite E1. specialize (IH cs1 ie h1).
    destruct (run_controllers cs1 (stream ++ [ie; ie]) (Some h1)),
             (run_controllers cs1 (stream ++ [ie]) (Some h1)).
    exact IH.
Qed.

(** C6. Idempotent reconciliation.  For every [Added] event and every
    controller, whatever it has accumulated and whatever the handler holds:
    reconciling the event a second time leaves the accumulation and the
    published table as the first time left them; and a watch stream in which
    the event is delivered twice in a row leaves the handler as the stream in
    which it is delivered once. *)
Theorem reconciliation_idempotent (id : string) (def : ChannelDef) :
  (forall (c : Controller) (h : Handler),
     let once := reconcile (Added id def) c h in
     let twice := reconcile (Added id def) once.1 once.2 in
     get twice.2 = get once.2
     /\ accumulated twice.1 = accumulated once.1
     /\ get once.2 !! id = Some (subscribers def))
  /\ (forall (cs : list Controller) stream (i : nat) (h : Handler),
        handler (run_controllers cs
                   (stream ++ [(i, Added id def); (i, Added id def)]) (Some h))
        = handler (run_controllers cs (stream ++ [(i, Added id def)]) (Some h))).
Proof.
  split.
  - intros c h. cbv zeta.
    rewrite (reconcile_twice (Added id def) c h).
    split; [reflexivity|split; [reflexivity|]].
    simpl. unfold compute_table.
    rewrite lookup_fmap, lookup_insert_eq. reflexivity.
  - intros cs stream i h. apply run_controllers_replay.
Qed.

(** ** Logging configuration *)

(** C8. Selection of the logging configuration.  [getLoggingConfigOrDie]
    returns the hardcoded map, without consulting any external source, exactly
    when the [hardCodedLoggingConfig] flag is set and true.  Otherwise it loads
    [/etc/config-logging] and returns what was loaded; if the load fails it
    writes a fatal entry and the process exits with status 1.  If the
    configuration obtained cannot be parsed, [setupLogger] writes a fatal entry
    and exits with status 1.  When [setupLogger] exits, that is where [main]
    ends. *)
Theorem logging_configuration (f : Flags) (w : World) :
  let r := exec (getLoggingConfigOrDie f w) in
  (hardcodedLoggingConfig f = Some true
   <-> r = mkRun (Returned hardcoded_logging_config) None [])
  /\ (hardcodedLoggingConfig f <> Some true ->
      match configmap_Load w "/etc/config-logging" with
      | Ok cm =>
          r = mkRun (Returned cm) None [EvConfigmapLoad "/etc/config-logging"]
      | Err err =>
          r = mkRun (Exited 1) None
                [ EvConfigmapLoad "/etc/config-logging";
                  EvFatal ("Error loading logging configuration: " ++ err)%string [] ]
      end)
  /\ (forall cm err,
        outcome r = Returned cm ->
        logging_NewConfigFromMap w cm = Some err ->
        outcome (exec (setupLogger f w)) = Exited 1
        /\ last (trace (exec (setupLogger f w)))
           = Some (EvFatal ("Error parsing logging configuration: " ++ err)%string []))
  /\ (forall status,
        outcome r = Exited status -> exec (setupLogger f w) = mkRun (Exited 1) None (trace r))
  /\ (forall status,
        outcome (exec (setupLogger f w)) = Exited status ->
        exec (main f w)
        = mkRun (Exited 1) None (EvFlagParse :: trace (exec (setupLogger f w)))).
Proof.
  cbv zeta. split; [|split; [|split; [|split]]].
  - unfold exec, getLoggingConfigOrDie, call_configmap_Load, fatal.
    destruct (hardcodedLoggingConfig f) as [[|]|];
      (split; [try discriminate; try reflexivity|try reflexivity]);
      cbv [mbind M_bind mret M_ret emit os_Exit];
      destruct (configmap_Load w "/etc/config-logging"); discriminate.
  - intros Hflag.
    unfold exec, getLoggingConfigOrDie, call_configmap_Load, fatal.
    destruct (hardcodedLoggingConfig f) as [[|]|]; [contradiction| |];
      cbv [mbind M_bind mret M_ret emit os_Exit];
      destruct (configmap_Load w "/etc/config-logging"); reflexivity.
  - intros cm err. unfold exec, setupLogger, getLoggingConfigOrDie, call_configmap_Load, fatal.
    destruct (hardcodedLoggingConfig f) as [[|]|];
      cbv [mbind M_bind mret M_ret emit os_Exit];
      try destruct (configmap_Load w "/etc/config-logging");
      cbn [outcome handler trace app]; try discriminate;
      intros [= <-] E; rewrite E; cbn [outcome handler trace app]; split; reflexivity.
  - intros status. unfold exec, setupLogger, getLoggingConfigOrDie, call_configmap_Load, fatal.
    destruct (hardcodedLoggingConfig f) as [[|]|];
      cbv [mbind M_bind mret M_ret emit os_Exit];
      try destruct (configmap_Load w "/etc/config-logging");
      cbn [outcome handler trace app]; try discriminate; reflexivity.
  - intros status. run_main f w; try discriminate; reflexivity.
Qed.

(** ** Fatal start-up conditions *)

(** Refute that an event is in a trace that is written out. *)
Ltac not_in_trace H :=
  exfalso; simpl in H;
  repeat (apply elem_of_cons in H as [H|H]; [discriminate H|]);
  apply elem_of_nil in H; exact H.

(** The goal follows from the one execution in which the call at hand was made
    and failed; in the others the call succeeded or was never made. *)
Ltac failed_call Hans Hin :=
  first [ congruence
        | not_in_trace Hin
        | injection Hans as <-; split; reflexivity ].

Lemma fatal_exit (f : Flags) (w : World) :
  startup_failure f w ->
  (exists status, outcome (exec (main f w)) = Exited status /\ status <> 0%Z)
  /\ (forall d, EvGoDispatcherStart d ∉ trace (exec (main f w))).
Proof.
  intros Hfail. run_main f w;
    try (split; [eexists; split; [reflexivity|discriminate]
                |intros d Hin; not_in_trace Hin]).
  all: exfalso; destruct Hfail as [[err H]|[[err H]|[[err H]|[[err H]|[err H]]]]];
    congruence.
Qed.

Lemma fatal_kubeconfig (f : Flags) (w : World) (err : Error) :
  clientcmd_BuildConfigFromFlags w (masterURL f) (kubeconfig f) = Err err ->
  EvBuildConfigFromFlags (masterURL f) (kubeconfig f) ∈ trace (exec (main f w)) ->
  outcome (exec (main f w)) = Exited 1
  /\ last_two (trace (exec (main f w)))
     = [ EvBuildConfigFromFlags (masterURL f) (kubeconfig f);
         EvFatal "Error building kubeconfig" [err] ].
Proof. intros Hans. run_main f w; intros Hin; failed_call Hans Hin. Qed.

Lemma fatal_handler (f : Flags) (w : World) (err : Error) :
  swappable_NewEmptyHandler w = Some err ->
  EvNewEmptyHandler ∈ trace (exec (main f w)) ->
  outcome (exec (main f w)) = Exited 1
  /\ last_two (trace (exec (main f w)))
     = [ EvNewEmptyHandler; EvFatal "Error creating swappable.Handler" [err] ].
Proof. intros Hans. run_main f w; intros Hin; failed_call Hans Hin. Qed.

Lemma fatal_zipkin (f : Flags) (w : World) (err : Error) :
  tracing_SetupDynamicZipkinPublishing w = Some err ->
  EvSetupDynamicZipkinPublishing "imc-dispatcher" ∈ trace (exec (main f w)) ->
  outcome (exec (main f w)) = Exited 1
  /\ last_two (trace (exec (main f w)))
     = [ EvSetupDynamicZipkinPublishing "imc-dispatcher";
         EvFatal "Error setting up Zipkin publishing" [err] ].
Proof. intros Hans. run_main f w; intros Hin; failed_call Hans Hin. Qed.

Lemma fatal_config_watcher (f : Flags) (w : World) (err : Error) :
  ConfigMapWatcher_Start w = Some err ->
  EvConfigMapWatcherStart ∈ trace (exec (main f w)) ->
  outcome (exec (main f w)) = Exited 1
  /\ last_two (trace (exec (main f w)))
     = [ EvConfigMapWatcherStart;
         EvFatal "failed to start configuration manager" [err] ].
Proof. intros Hans. run_main f w; intros Hin; failed_call Hans Hin. Qed.

Lemma fatal_informers (f : Flags) (w : World) (err : Error) :
  kncontroller_StartInformers w = Some err ->
  EvStartInformers ∈ trace (exec (main f w)) ->
  outcome (exec (main f w)) = Exited 1
  /\ last_two (trace (exec (main f w)))
     = [ EvStartInformers;
         EvFatal ("Failed to start informers: " ++ err)%string [] ].
Proof. intros Hans. run_main f w; intros Hin; failed_call Hans Hin. Qed.

(** C7. Fatal start-up conditions.  If building the kubeconfig, creating the
    swappable handler, setting up Zipkin publishing, starting the config-map
    watcher or starting the informers fails, the process exits with a non-zero
    status and the dispatcher is never started.  Each of the five calls is
    made at most once, in program order, so none is retried; and the call that
    was made and failed is followed by the fatal entry that carries its error
    and by nothing else: the process exits there with status 1. *)
Theorem fatal_startup (f : Flags) (w : World) :
  startup_failure f w ->
  let r := exec (main f w) in
  (exists status, outcome r = Exited status /\ status <> 0%Z)
  /\ (forall d, EvGoDispatcherStart d ∉ trace r)
  /\ omap startup_call (trace r) `prefix_of` startup_calls
  /\ (forall err,
        clientcmd_BuildConfigFromFlags w (masterURL f) (kubeconfig f) = Err err ->
        EvBuildConfigFromFlags (masterURL f) (kubeconfig f) ∈ trace r ->
        outcome r = Exited 1
        /\ last_two (trace r)
           = [ EvBuildConfigFromFlags (masterURL f) (kubeconfig f);
               EvFatal "Error building kubeconfig" [err] ])
  /\ (forall err,
        swappable_NewEmptyHandler w = Some err ->
        EvNewEmptyHandler ∈ trace r ->
        outcome r = Exited 1
        /\ last_two (trace r)
           = [ EvNewEmptyHandler; EvFatal "Error creating swappable.Handler" [err] ])
  /\ (forall err,
        tracing_SetupDynamicZipkinPublishing w = Some err ->
        EvSetupDynamicZipkinPublishing "imc-dispatcher" ∈ trace r ->
        outcome r = Exited 1
        /\ last_two (trace r)
           = [ EvSetupDynamicZipkinPublishing "imc-dispatcher";
               EvFatal "Error setting up Zipkin publishing" [err] ])
  /\ (forall err,
        ConfigMapWatcher_Start w = Some err ->
        EvConfigMapWatcherStart ∈ trace r ->
        outcome r = Exited 1
        /\ last_two (trace r)
           = [ EvConfigMapWatcherStart;
               EvFatal "failed to start configuration manager" [err] ])
  /\ (forall err,
        kncontroller_StartInformers w = Some err ->
        EvStartInformers ∈ trace r ->
        outcome r = Exited 1
        /\ last_two (trace r)
           = [ EvStartInformers;
               EvFatal ("Failed to start informers: " ++ err)%string [] ]).
Proof.
  intros Hfail. cbv zeta.
  destruct (fatal_exit f w Hfail) as [Hexit Hnever].
  split; [exact Hexit|split; [exact Hnever|split; [apply main_startup_calls|]]].
  split; [apply fatal_kubeconfig|].
  split; [apply fatal_handler|].
  split; [apply fatal_zipkin|].
  split; [apply fatal_config_watcher|apply fatal_informers].
Qed.

Lemma fatal_startup_witness :
  startup_failure no_flags unsynced_world
  /\ EvStartInformers ∈ trace (exec (main no_flags unsynced_world))
  /\ outcome (exec (main no_flags unsynced_world)) = Exited 1
  /\ last_two (trace (exec (main no_flags unsynced_world)))
     = [ EvStartInformers;
         EvFatal "Failed to start informers: timed out waiting for caches" [] ].
Proof.
  split; [exact unsynced_world_fails|split; [exact unsynced_run_starts_informers|]].
  destruct (fatal_startup no_flags unsynced_world unsynced_world_fails)
    as (_ & _ & _ & _ & _ & _ & _ & Hinformers).
  apply (Hinformers "timed out waiting for caches"%string).
  - reflexivity.
  - exact unsynced_run_starts_informers.
Defined.

(** * Further properties of [main] *)

(** Show that an event is in a trace that is written out. *)
Ltac in_trace :=
  repeat first [apply list_elem_of_here | apply list_elem_of_further].

(** Go through the events of a written-out trace that [H] says contains an
    event; [fin] closes the goal where the event is found. *)
Ltac cases_in H fin :=
  simpl in H;
  repeat (apply elem_of_cons in H as [H|H];
          [first [discriminate H | injection H; intros; subst; fin]|]);
  apply elem_of_nil in H; contradiction.

(** ** When [main] returns *)





(** ** The config-map watcher *)

Lemma main_watcher (f : Flags) (w : World) :
  omap watcher (trace (exec (main f w)))
  `prefix_of` [ Watched (logconfig_ConfigMapName w);
                TracingSetUp "imc-dispatcher";
                WatcherStarted ].
Proof. run_main f w; read_trace watcher; eexists; reflexivity. Qed.

Lemma watcher_started_after_tracing (f : Flags) (w : World) :
  EvConfigMapWatcherStart ∈ trace (exec (main f w)) ->
  tracing_SetupDynamicZipkinPublishing w = None.
Proof. run_main f w; intros Hin; first [reflexivity | not_in_trace Hin]. Qed.

(** X5. The config-map watcher is started only after the watch on the logging
    config map has been registered and Zipkin publishing has been set up on
    it, in that order and each once, and only if setting up Zipkin publishing
    succeeded; nothing is registered on the watcher after it was started. *)
Theorem watcher_started_last (f : Flags) (w : World) :
  let r := exec (main f w) in
  omap watcher (trace r)
  `prefix_of` [ Watched (logconfig_ConfigMapName w);
                TracingSetUp "imc-dispatcher";
                WatcherStarted ]
  /\ (forall pre post,
        trace r = pre ++ EvConfigMapWatcherStart :: post ->
        omap watcher pre
        = [ Watched (logconfig_ConfigMapName w); TracingSetUp "imc-dispatcher" ]
        /\ omap watcher post = []
        /\ tracing_SetupDynamicZipkinPublishing w = None).
Proof.
  cbv zeta. split; [apply main_watcher|].
  intros pre post Ht.
  destruct (order_split watcher (trace (exec (main f w)))
              [ Watched (logconfig_ConfigMapName w); TracingSetUp "imc-dispatcher" ]
              [] WatcherStarted pre EvConfigMapWatcherStart post (main_watcher f w))
    as [E1 E2]; [| |exact Ht|reflexivity|].
  - rewrite !not_elem_of_cons. repeat split; try discriminate. apply not_elem_of_nil.
  - apply not_elem_of_nil.
  - split; [exact E1|split; [apply prefix_nil_inv; exact E2|]].
    apply (watcher_started_after_tracing f w).
    rewrite Ht. apply elem_of_app. right. left.
Qed.

(** ** The logger *)

(** X6. [setupLogger] parses exactly the configuration that
    [getLoggingConfigOrDie] returned, and parses nothing when that call did
    not return.  It builds a logger exactly when it returns, for the component
    [logconfig.Controller]; and it returns exactly when a configuration was
    obtained and parsed without error. *)
Theorem setupLogger_uses_selected_config (f : Flags) (w : World) :
  let g := exec (getLoggingConfigOrDie f w) in
  let s := exec (setupLogger f w) in
  (forall cm, EvNewConfigFromMap cm ∈ trace s <-> outcome g = Returned cm)
  /\ (forall c, EvNewLoggerFromConfig c ∈ trace s
                <-> c = logconfig_Controller w /\ outcome s = Returned tt)
  /\ (outcome s = Returned tt
      <-> exists cm, outcome g = Returned cm /\ logging_NewConfigFromMap w cm = None).
Proof.
  cbv zeta.
  cbv [exec setupLogger getLoggingConfigOrDie call_configmap_Load fatal mbind M_bind
       mret M_ret emit os_Exit].
  destruct (hardcodedLoggingConfig f) as [[|]|]; cbn [outcome handler trace app];
    try destruct (configmap_Load w "/etc/config-logging") as [cm0|e0];
    cbn [outcome handler trace app];
    try destruct (logging_NewConfigFromMap w _) as [e1|] eqn:Hparse;
    cbn [outcome handler trace app].
  all: split; [|split].
  all: try (intros cm; split;
            [intros Hin; cases_in Hin ltac:(reflexivity)
            |intros Hg; first [discriminate Hg|injection Hg as <-; in_trace]]).
  all: try (intros c; split; [intros Hin|intros [-> Hout]];
            [cases_in Hin ltac:(split; reflexivity)
            |first [discriminate Hout|in_trace]]).
  all: split; [intros Hout|intros (cm & Hg & Hp)].
  all: first [ discriminate
             | reflexivity
             | eexists; split; [reflexivity|exact Hparse]
             | injection Hg as <-; congruence ].
Qed.


(** X8. The hardcoded ["zap-logger-config"] text opens two JSON objects and
    closes one: read to its end it leaves one bracket open, and it is one
    closing brace short of being well bracketed. *)
Theorem hardcoded_zap_config_unbalanced :
  hardcoded_logging_config !! "zap-logger-config"%string
  = Some hardcoded_zap_logger_config
  /\ open_brackets hardcoded_zap_logger_config false false 0 = Some 1%nat
  /\ open_brackets (hardcoded_zap_logger_config ++ "}")%string false false 0
     = Some 0%nat.
Proof. split; [|split]; vm_compute; reflexivity. Qed.
